(** * world-state-art: the generative core of [script.js]

    A shallow embedding of [hexToRgb], [draftColors], [generateArt] and
    [switchState].

    Modelling choices.
    - JavaScript numbers are exact rationals ([Q]): every constant of the
      script (0.002, 0.1, 0.30, 0.85, ...) is a decimal literal, and the
      operations used are [+], [-], [*], [/ 2], [<], [>] and [Math.floor].
      IEEE-754 rounding and NaN are not represented; module [Binary64]
      evaluates the literal values on doubles.
    - [Math.seedrandom] and [SimplexNoise] are third-party libraries that
      the page loads besides [script.js]; they are parameters of the
      development (section [Engine]).  A generator is a state with a
      [draw] function, threaded explicitly wherever the script calls
      [rng()] or [myRNG()].
    - No statement of the script assigns to a field of a world-data
      record, so a record is a value.
    - [generateArt] is an [async] function: whenever it awaits the
      zero-delay timer, other tasks of the page run.  They are an
      arbitrary transformation of the page state ([Host]); the locals of
      the suspended call ([myRNG], [simplex], [colors], [imageData]) are
      not reachable from the page until the call stores [imageData].
    - The class list of a state container is a set of class names. *)

From Stdlib Require Import ZArith QArith Qround Lqa Lia String Ascii List Bool.
From Stdlib Require Import Floats.
From stdpp Require Import base list gmap.

Local Open Scope Z_scope.
Local Open Scope Q_scope.

(** ** Numbers *)

(** [a < b] on numbers, as a boolean. *)
Definition Qltb (a b : Q) : bool := negb (Qle_bool b a).

(** The integer [n] as a number. *)
Definition ofZ (n : Z) : Q := inject_Z n.
Definition ofNat (n : nat) : Q := inject_Z (Z.of_nat n).

(** ** Strings: [replace("#", "")] and [parseInt(_, 16)] *)

(** [s.replace("#", "")]: the first ["#"] is removed. *)
Fixpoint replace_hash (s : string) : string :=
  match s with
  | EmptyString => EmptyString
  | String c s' => if Ascii.eqb c "#" then s' else String c (replace_hash s')
  end.

(** Value of one hexadecimal digit. *)
Definition hexDigit (c : ascii) : option Z :=
  let n := Z.of_nat (nat_of_ascii c) in
  if (48 <=? n)%Z && (n <=? 57)%Z then Some (n - 48)%Z
  else if (65 <=? n)%Z && (n <=? 70)%Z then Some (n - 55)%Z
  else if (97 <=? n)%Z && (n <=? 102)%Z then Some (n - 87)%Z
  else None.

(** White space that [parseInt] skips (the ASCII part of it). *)
Definition isWhite (c : ascii) : bool :=
  let n := nat_of_ascii c in
  (n =? 9)%nat || (n =? 10)%nat || (n =? 11)%nat || (n =? 12)%nat
  || (n =? 13)%nat || (n =? 32)%nat.

Fixpoint skipWhite (s : string) : string :=
  match s with
  | String c s' => if isWhite c then skipWhite s' else s
  | EmptyString => s
  end.

(** The longest prefix of hexadecimal digits, read most significant
    digit first; [None] when the prefix is empty. *)
Fixpoint hexPrefix (s : string) (acc : option Z) : option Z :=
  match s with
  | EmptyString => acc
  | String c s' =>
      match hexDigit c with
      | None => acc
      | Some d => hexPrefix s' (Some (16 * default 0%Z acc + d)%Z)
      end
  end.

(** [parseInt(s, 16)]; [None] is NaN.  The integer is exact (the script
    parses six digits; a double is exact up to thirteen). *)
Definition parseInt16 (s : string) : option Z :=
  let s := skipWhite s in
  let '(sign, s) :=
    match s with
    | String "-" s' => ((-1)%Z, s')
    | String "+" s' => (1%Z, s')
    | _ => (1%Z, s)
    end in
  let s :=
    match s with
    | String "0" (String "x" s') => s'
    | String "0" (String "X" s') => s'
    | _ => s
    end in
  match hexPrefix s None with
  | None => None
  | Some n => Some (sign * n)%Z
  end.

(** ToInt32, the conversion [>>] and [&] apply to their operands:
    NaN becomes 0, an integer wraps to the signed 32-bit range. *)
Definition toInt32 (v : option Z) : Z :=
  match v with
  | None => 0%Z
  | Some n => (((n + 2 ^ 31) mod 2 ^ 32) - 2 ^ 31)%Z
  end.

(** An RGB triple, as the three-element array [hexToRgb] returns. *)
Definition RGB : Type := (Z * Z * Z)%type.

Definition hexToRgb (hex : string) : RGB :=
  let bigint := parseInt16 (replace_hash hex) in
  (Z.land (Z.shiftr (toInt32 bigint) 16) 255,
   Z.land (Z.shiftr (toInt32 bigint) 8) 255,
   Z.land (toInt32 bigint) 255).

(** ** The colour pools *)

Module POOL.
Definition dark : list string :=
  ["#2C3E50"; "#1A1A2E"; "#4A148C"; "#1B4F72"; "#641E16"; "#145A32";
   "#212F3C"; "#512E5F"]%string.
Definition vibrant : list string :=
  ["#FF5733"; "#C70039"; "#FFC300"; "#900C3F"; "#2ECC71"; "#E74C3C";
   "#8E44AD"; "#D35400"; "#F39C12"; "#1ABC9C"]%string.
Definition light : list string :=
  ["#FDFEFE"; "#F4ECF7"; "#FEF9E7"; "#D5F5E3"; "#FAD7A0"; "#E8F8F5";
   "#D2B4DE"; "#A9DFBF"]%string.
End POOL.

(** [arr[i]] for a number [i] that is an integer: [None] is [undefined]. *)
Definition at_index {A : Type} (arr : list A) (i : Z) : option A :=
  if (i <? 0)%Z then None else arr !! Z.to_nat i.

(** ** The raster buffer *)

(** The conversion a [Uint8ClampedArray] applies to a stored number:
    clamp to [0, 255], then round to the nearest integer, ties to even. *)
Definition toUint8Clamp (v : Q) : Z :=
  if Qle_bool v 0 then 0%Z
  else if Qle_bool 255 v then 255%Z
  else
    let f := Qfloor v in
    if Qltb (ofZ f + 0.5) v then (f + 1)%Z
    else if Qltb v (ofZ f + 0.5) then f
    else if Z.even f then f else (f + 1)%Z.

Record ImageData := {
  width : nat;
  height : nat;
  data : list Z            (* RGBA bytes, row-major *)
}.

(** [ctx.createImageData(w, h)]: transparent black. *)
Definition createImageData (w h : nat) : ImageData :=
  {| width := w; height := h; data := replicate (w * h * 4) 0%Z |}.

(** ** World data and the page *)

Record WorldData := {
  timestamp : string;
  p_season : Q;
  p_sentiment : Q;
  p_entropy : Q;
  p_humanity : Q;
  p_atmosphere : Q
}.

(** The record [d] with its sentiment replaced. *)
Definition with_sentiment (s : Q) (d : WorldData) : WorldData :=
  {| timestamp := timestamp d; p_season := p_season d; p_sentiment := s;
     p_entropy := p_entropy d; p_humanity := p_humanity d;
     p_atmosphere := p_atmosphere d |}.

(** The invariant of the data model: the five signals lie in [0, 1]. *)
Definition unit_range (q : Q) : Prop := 0 <= q /\ q <= 1.
Definition in_range (d : WorldData) : Prop :=
  unit_range (p_season d) /\ unit_range (p_sentiment d) /\
  unit_range (p_entropy d) /\ unit_range (p_humanity d) /\
  unit_range (p_atmosphere d).

(** What the page holds besides the locals of a running [generateArt]:
    the text of [timestampDisplay], the bitmap of the canvas, and the two
    state containers [currentWorldData] and [lastGeneratedImageData]. *)
Record Host := {
  timestampDisplay : string;
  canvasBitmap : list Z;
  currentWorldData : option WorldData;
  lastGeneratedImageData : option ImageData
}.

(** What the other tasks of the page do to it while [generateArt] is
    suspended after row [y]. *)
Definition Env : Type := nat -> Host -> Host.

(** The click handler of [resetBtn], as far as [Host] records it:
    [ctx.clearRect] blanks the canvas. *)
Definition resetClick (h : Host) : Host :=
  {| timestampDisplay := timestampDisplay h;
     canvasBitmap := map (fun _ => 0%Z) (canvasBitmap h);
     currentWorldData := currentWorldData h;
     lastGeneratedImageData := lastGeneratedImageData h |}.

(** [currentWorldData = await response.json()] in the click handler of
    [generateBtn]: the variable is bound to a new record. *)
Definition storeWorldData (d : WorldData) (h : Host) : Host :=
  {| timestampDisplay := timestampDisplay h;
     canvasBitmap := canvasBitmap h;
     currentWorldData := Some d;
     lastGeneratedImageData := lastGeneratedImageData h |}.

(** How an [async] call ends: the promise is fulfilled or rejected; the
    page is left in the state given. *)
Inductive Settled :=
| Fulfilled (h : Host)
| Rejected (h : Host).

(** The raster a call produced: the image it stored on fulfilment. *)
Definition produced (r : Settled) : option ImageData :=
  match r with
  | Fulfilled h => lastGeneratedImageData h
  | Rejected _ => None
  end.

Definition CANVAS_WIDTH : nat := 1240.
Definition CANVAS_HEIGHT : nat := 1754.
Definition CHUNK_SIZE : nat := 150.

(** [for (let k = i; k < i + n; k++) body], an exception ending the loop. *)
Fixpoint for_range {St : Type} (i n : nat) (body : nat -> St -> option St)
    (s : St) : option St :=
  match n with
  | O => Some s
  | S n' =>
      match body i s with
      | None => None
      | Some s' => for_range (S i) n' body s'
      end
  end.

(** ** The state containers *)

(** The class lists of the three state containers, sets of class
    names. *)
Record Dom := {
  introState : gset string;
  loadingState : gset string;
  artState : gset string
}.

(** A state container is shown when its class list lacks ["hidden"]. *)
Definition shown (classList : gset string) : Prop := "hidden"%string ∉ classList.

Definition switchState (stateName : string) (d : Dom) : Dom :=
  let intro := introState d ∪ {["hidden"%string]} in
  let loading := loadingState d ∪ {["hidden"%string]} in
  let art := artState d ∪ {["hidden"%string]} in
  let intro := if String.eqb stateName "intro" then intro ∖ {["hidden"%string]} else intro in
  let loading :=
    if String.eqb stateName "loading" then loading ∖ {["hidden"%string]} else loading in
  let art := if String.eqb stateName "art" then art ∖ {["hidden"%string]} else art in
  {| introState := intro; loadingState := loading; artState := art |}.

(** ** The run parameters in binary64

    The three affine expressions of [generateArt] on IEEE-754 doubles,
    to check that the exact model and the doubles agree on the literal
    values the specification quotes. *)

Module Binary64.
#[local] Set Warnings "-inexact-float".
Definition zoom (p_humanity : float) : float := (0.002 + p_humanity * 0.002)%float.
Definition distortion (p_entropy : float) : float := (100 + p_entropy * 200)%float.
Definition grainAmount (p_atmosphere : float) : float :=
  (0.1 + p_atmosphere * 0.1)%float.
Definition literals : list (float * float) :=
  [(zoom 0, 0.002); (zoom 1, 0.004); (distortion 0, 100); (distortion 1, 300);
   (grainAmount 0, 0.1); (grainAmount 1, 0.2)]%float.
(** The largest double below 1, the largest draw of a generator, times
    the two pool lengths. *)
Definition largest_draw : float := next_down 1.
Definition scaled_draws : list (float * float) :=
  [(largest_draw * 8, 8); (largest_draw * 10, 10)]%float.
End Binary64.

(** ** Sample generators and fields

    Small stand-ins for the two libraries, to run the model on. *)

(** A linear congruential generator on 31 bits; a draw is the state
    modulo 1000, in thousandths. *)
Definition lcg_seed (seed : string) : Z := Z.of_nat (String.length seed).
Definition lcg_draw (s : Z) : Q * Z :=
  (Qmake (s mod 1000) 1000, ((s * 1103515245 + 12345) mod 2 ^ 31)%Z).

(** A generator that returns 1, outside the contract of [Math.seedrandom]. *)
Definition stuck_draw (s : Z) : Q * Z := (1, s).

(** A field that is a ramp in [y], cut to [-1, 1]; it has no tables to
    build and leaves the generator as it is. *)
Definition ramp_new (s : Z) : unit * Z := (tt, s).
Definition ramp_noise2D (_ : unit) (x y : Q) : Q :=
  let v := y * 0.001 in
  if Qltb v (-1) then -1 else if Qltb 1 v then 1 else v.

Definition plainStamp (s : string) : string := s.

Definition sample_data : WorldData :=
  {| timestamp := "2025-01-01T00:00:00Z"; p_season := 0.8;
     p_sentiment := 0.5; p_entropy := 0.7; p_humanity := 0.5;
     p_atmosphere := 0.5 |}.

Definition blank_host : Host :=
  {| timestampDisplay := ""; canvasBitmap := [];
     currentWorldData := None; lastGeneratedImageData := None |}.

(** The raster of [sample_data] at 3 by 2 under the sample generator
    and field. *)
Definition sample_raster : ImageData :=
  {| width := 3; height := 2;
     data := [209; 82; 0; 255;  210; 83; 0; 255;  255; 250; 232; 255;
              255; 250; 232; 255;  210; 83; 0; 255;  209; 82; 0; 255]%Z |}.

(** A record whose signals lie outside [0, 1]. *)
Definition wild_data : WorldData :=
  {| timestamp := "2025-01-01T00:00:00Z"; p_season := 2;
     p_sentiment := -1; p_entropy := 7; p_humanity := -3;
     p_atmosphere := 12 |}.

(** ** The engine, over the two libraries *)

Section Engine.
(** [Math.seedrandom]: the state of a generator, [new Math.seedrandom(s)]
    and one call of the generator. *)
Context {rng : Type} (seedrandom : string -> rng) (draw : rng -> Q * rng).
(** [SimplexNoise]: [new SimplexNoise(random)] builds its tables by
    calling [random], so it returns the generator advanced; [noise2D]. *)
Context {simplex : Type} (SimplexNoise : rng -> simplex * rng)
        (noise2D : simplex -> Q -> Q -> Q).
(** [new Date(s).toLocaleDateString('en-US', ...).toUpperCase()]. *)
Context (toLocaleDateString : string -> string).

(** The contract of a generator: every draw lies in [0, 1). *)
Definition unit_draws : Prop := forall g, 0 <= fst (draw g) /\ fst (draw g) < 1.


(** The generator after [n] draws. *)
Definition after (n : nat) (g : rng) : rng := Nat.iter n (fun g => snd (draw g)) g.

(** *** draftColors *)

(** [arr[Math.floor(rng() * arr.length)]] *)
Definition pickFrom (arr : list string) (g : rng) : option string * rng :=
  let '(u, g') := draw g in
  (at_index arr (Qfloor (u * ofNat (length arr))), g').

(** [selected.push(pickFrom(arr))] *)
Definition push_pick (arr : list string) (st : list (option string) * rng)
    : list (option string) * rng :=
  let '(selected, g) := st in
  let '(c, g') := pickFrom arr g in
  (selected ++ [c], g').

(** The five picks of [draftColors], before the conversion. *)
Definition draftPicks (season sentiment entropy : Q) (seedStr : string)
    : list (option string) * rng :=
  let st := ([], seedrandom (seedStr ++ "_COLOR_DRAFT")%string) in
  let st := if Qltb 0.6 season then push_pick POOL.dark st
            else push_pick POOL.light st in
  let st := push_pick POOL.vibrant st in
  let st := if Qltb 0.6 season then push_pick POOL.light st
            else push_pick POOL.dark st in
  if Qltb 0.5 entropy then
    let st := push_pick POOL.vibrant st in
    push_pick POOL.vibrant st
  else
    let st := push_pick POOL.light st in
    push_pick POOL.dark st.

(** [selected.map(hexToRgb)]: [hexToRgb(undefined)] throws. *)
Definition draftColors (season sentiment entropy : Q) (seedStr : string)
    : option (list RGB) :=
  mapM (fmap hexToRgb) (fst (draftPicks season sentiment entropy seedStr)).

(** *** generateArt *)

Definition zoomOf (d : WorldData) : Q := 0.002 + p_humanity d * 0.002.
Definition distortionOf (d : WorldData) : Q := 100 + p_entropy d * 200.
Definition grainAmountOf (d : WorldData) : Q := 0.1 + p_atmosphere d * 0.1.

(** [value], the warped sample of pixel (x, y). *)
Definition warpedValue (sx : simplex) (zoom distortion : Q) (x y : nat) : Q :=
  let xWarp := noise2D sx (ofNat x * zoom) (ofNat y * zoom) in
  let yWarp := noise2D sx ((ofNat x + 1000) * zoom) ((ofNat y + 1000) * zoom) in
  let finalX := ofNat x + xWarp * distortion in
  let finalY := ofNat y + yWarp * distortion in
  (noise2D sx (finalX * zoom) (finalY * zoom) + 1) / 2.

(** [grain], from the draw [u]. *)
Definition grainOf (d : WorldData) (u : Q) : Q := (u - 0.5) * grainAmountOf d.

(** The threshold chain that sets [colIndex]. *)
Definition quantize (ditheredValue : Q) : Z :=
  if Qltb ditheredValue 0.30 then 0
  else if Qltb ditheredValue 0.50 then 1
  else if Qltb ditheredValue 0.70 then 2
  else if Qltb ditheredValue 0.85 then 3
  else 4.

(** [if (colIndex < 0) colIndex = 0; if (colIndex > 4) colIndex = 4;] *)
Definition clampIndex (colIndex : Z) : Z :=
  let colIndex := if (colIndex <? 0)%Z then 0%Z else colIndex in
  if (4 <? colIndex)%Z then 4%Z else colIndex.

(** [colIndex] of a pixel whose warped sample is [value] and whose
    grain is [grain]. *)
Definition colIndexOf (value grain : Q) : Z := clampIndex (quantize (value + grain)).

(** The locals the pixel loop updates: the state of [myRNG] and
    [imageData.data]. *)
Definition Locals : Type := (rng * list Z)%type.

(** The body of the inner loop for pixel (x, y) of a [w]-wide image. *)
Definition pixel (w : nat) (d : WorldData) (sx : simplex) (colors : list RGB)
    (zoom distortion : Q) (y x : nat) (st : Locals) : option Locals :=
  let '(g, pixels) := st in
  let value := warpedValue sx zoom distortion x y in
  let '(u, g') := draw g in
  let grain := grainOf d u in
  let colIndex := colIndexOf value grain in
  match at_index colors colIndex with
  | None => None                      (* [rgb[0]] of [undefined] throws *)
  | Some (r0, g0, b0) =>
      let r := ofZ r0 + grain * 30 in
      let gr := ofZ g0 + grain * 30 in
      let b := ofZ b0 + grain * 30 in
      let index := ((y * w + x) * 4)%nat in
      Some (g',
            <[(index + 3)%nat := 255%Z]>
              (<[(index + 2)%nat := toUint8Clamp b]>
                 (<[(index + 1)%nat := toUint8Clamp gr]>
                    (<[index := toUint8Clamp r]> pixels))))
  end.

(** The row loop from row [y] on, [n] rows to go: after each row whose
    number is a multiple of [CHUNK_SIZE] the call is suspended and the
    page is left to the other tasks. *)
Fixpoint rows (w : nat) (d : WorldData) (sx : simplex) (colors : list RGB)
    (zoom distortion : Q) (env : Env) (y n : nat) (h : Host) (st : Locals)
    : Host * option Locals :=
  match n with
  | O => (h, Some st)
  | S n' =>
      match for_range 0 w (pixel w d sx colors zoom distortion y) st with
      | None => (h, None)
      | Some st' =>
          let h' := if (y mod CHUNK_SIZE =? 0)%nat then env y h else h in
          rows w d sx colors zoom distortion env (S y) n' h' st'
      end
  end.

(** [generateArt] for a [w] by [h] canvas. *)
Definition generateArtAt (w h : nat) (d : WorldData) (env : Env) (page : Host)
    : Settled :=
  let seedString := (timestamp d ++ "_RETRO_V7")%string in
  let myRNG := seedrandom seedString in
  let '(sx, myRNG) := SimplexNoise myRNG in
  let page :=
    {| timestampDisplay := toLocaleDateString (timestamp d);
       canvasBitmap := canvasBitmap page;
       currentWorldData := currentWorldData page;
       lastGeneratedImageData := lastGeneratedImageData page |} in
  match draftColors (p_season d) (p_sentiment d) (p_entropy d) seedString with
  | None => Rejected page
  | Some colors =>
      let imageData := createImageData w h in
      let zoom := zoomOf d in
      let distortion := distortionOf d in
      match rows w d sx colors zoom distortion env 0 h page
                 (myRNG, data imageData) with
      | (page, None) => Rejected page
      | (page, Some (_, pixels)) =>
          let imageData :=
            {| width := width imageData; height := height imageData;
               data := pixels |} in
          Fulfilled
            {| timestampDisplay := timestampDisplay page;
               canvasBitmap := data imageData;
               currentWorldData := currentWorldData page;
               lastGeneratedImageData := Some imageData |}
      end
  end.

Definition generateArt : WorldData -> Env -> Host -> Settled :=
  generateArtAt CANVAS_WIDTH CANVAS_HEIGHT.

(** *** The same functions, as the specification words them *)

(** The pixel loop run to the end without suspension: the rows in
    order, each row its pixels in order. *)
Definition pixelLoop (w h : nat) (d : WorldData) (sx : simplex)
    (colors : list RGB) (zoom distortion : Q) (st : Locals) : option Locals :=
  for_range 0 h
    (fun y => for_range 0 w (pixel w d sx colors zoom distortion y)) st.

(** [synthesize(params, width, height) -> Raster]: seed, streams, field,
    palette and pixel loop, with no page and no suspension. *)
Definition synthesize (d : WorldData) (w h : nat) : option ImageData :=
  let seedString := (timestamp d ++ "_RETRO_V7")%string in
  let '(sx, myRNG) := SimplexNoise (seedrandom seedString) in
  match draftColors (p_season d) (p_sentiment d) (p_entropy d) seedString with
  | None => None
  | Some colors =>
      match pixelLoop w h d sx colors (zoomOf d) (distortionOf d)
              (myRNG, replicate (w * h * 4) 0%Z) with
      | None => None
      | Some (_, pixels) => Some {| width := w; height := h; data := pixels |}
      end
  end.


(** The pool the specification names for each slot of the palette. *)
Definition slotPool (season entropy : Q) (slot : nat) : list string :=
  match slot with
  | 0%nat => if Qltb 0.6 season then POOL.dark else POOL.light
  | 1%nat => POOL.vibrant
  | 2%nat => if Qltb 0.6 season then POOL.light else POOL.dark
  | 3%nat => if Qltb 0.5 entropy then POOL.vibrant else POOL.light
  | _ => if Qltb 0.5 entropy then POOL.vibrant else POOL.dark
  end.

(** [pool[floor(u * pool.length)]] *)
Definition poolEntry (pool : list string) (u : Q) : option string :=
  at_index pool (Qfloor (u * ofNat (length pool))).

(** The draw that fills slot [slot]: the generator seeded with the
    draft tag, after [slot] earlier draws. *)
Definition slotDraw (seedStr : string) (slot : nat) : Q :=
  fst (draw (after slot (seedrandom (seedStr ++ "_COLOR_DRAFT")%string))).

(** The validation the specification asks for. *)
Definition validated (d : WorldData) : Prop := in_range d.

(** A channel is a byte. *)
Definition byte_range (b : Z) : Prop := (0 <= b /\ b <= 255)%Z.
Definition rgb_range (c : RGB) : Prop :=
  byte_range (c.1.1) /\ byte_range (c.1.2) /\ byte_range (c.2).

(** The four bytes of pixel (x, y) in the buffer [pixels] of a [w]-wide
    image are those of base colour [c] with grain [grain]. *)
Definition stored (w : nat) (pixels : list Z) (x y : nat) (c : RGB) (grain : Q)
    : Prop :=
  let index := ((y * w + x) * 4)%nat in
  pixels !! index = Some (toUint8Clamp (ofZ (c.1.1) + grain * 30)) /\
  pixels !! (index + 1)%nat = Some (toUint8Clamp (ofZ (c.1.2) + grain * 30)) /\
  pixels !! (index + 2)%nat = Some (toUint8Clamp (ofZ (c.2) + grain * 30)) /\
  pixels !! (index + 3)%nat = Some 255%Z.

(** The grain of pixel (x, y) of a [w]-wide image: pixels are visited
    row by row, one draw each, from the generator [g0] the field left. *)
Definition pixelGrain (w : nat) (d : WorldData) (g0 : rng) (x y : nat) : Q :=
  grainOf d (fst (draw (after (y * w + x) g0))).

(** Pixel (x, y) of [pixels] holds its palette entry with its grain. *)
Definition written (w : nat) (d : WorldData) (sx : simplex) (colors : list RGB)
    (zoom distortion : Q) (g0 : rng) (pixels : list Z) (x y : nat) : Prop :=
  exists c,
    at_index colors
      (colIndexOf (warpedValue sx zoom distortion x y) (pixelGrain w d g0 x y))
      = Some c /\
    stored w pixels x y c (pixelGrain w d g0 x y).

(** The state of the loops of a [w] by [h] image when pixel (x, y) is
    next. *)
Definition loop_inv (w h : nat) (d : WorldData) (sx : simplex)
    (colors : list RGB) (zoom distortion : Q) (g0 : rng) (y x : nat)
    (st : Locals) : Prop :=
  st.1 = after (y * w + x) g0 /\
  length st.2 = (w * h * 4)%nat /\
  forall x' y', (x' < w)%nat -> (y' < y \/ y' = y /\ x' < x)%nat ->
    written w d sx colors zoom distortion g0 st.2 x' y'.

(** *** Properties of palettes and pixels *)

(** Pixel (x, y) of [pixels] is opaque and each of its channels is
    within three levels of the channel of [c]. *)
Definition pixel_near (w : nat) (pixels : list Z) (x y : nat) (c : RGB) : Prop :=
  let index := ((y * w + x) * 4)%nat in
  exists r g b,
    pixels !! index = Some r /\ pixels !! (index + 1)%nat = Some g /\
    pixels !! (index + 2)%nat = Some b /\
    pixels !! (index + 3)%nat = Some 255%Z /\
    (-3 <= r - c.1.1 <= 3)%Z /\ (-3 <= g - c.1.2 <= 3)%Z /\
    (-3 <= b - c.2 <= 3)%Z.

(** The sum of the channels of a colour. *)
Definition brightness (c : RGB) : Z := (c.1.1 + c.1.2 + c.2)%Z.

(** The value of a string of hexadecimal digits, and whether a string is
    one. *)
Fixpoint hexValue (s : string) (acc : Z) : Z :=
  match s with
  | EmptyString => acc
  | String c s' => hexValue s' (16 * acc + default 0%Z (hexDigit c))%Z
  end.

Fixpoint allHex (s : string) : bool :=
  match s with
  | EmptyString => true
  | String c s' => match hexDigit c with Some _ => allHex s' | None => false end
  end.

(** * Theorems *)

(** ** Facts about numbers *)

Lemma Qltb_lt (a b : Q) : Qltb a b = true <-> a < b.
Proof.
unfold Qltb. rewrite negb_true_iff.
destruct (Qle_bool b a) eqn:E.
- apply Qle_bool_iff in E. split; [discriminate | intros H; exfalso; lra].
- split; [intros _ | reflexivity].
  destruct (Qlt_le_dec a b) as [H | H]; [exact H |].
  apply Qle_bool_iff in H. congruence.
Qed.

Lemma Qltb_ge (a b : Q) : Qltb a b = false <-> b <= a.
Proof.
destruct (Qltb a b) eqn:E.
- apply Qltb_lt in E. split; [discriminate | intros H; exfalso; lra].
- split; [intros _ | reflexivity].
  destruct (Qlt_le_dec a b) as [H | H]; [| exact H].
  apply Qltb_lt in H. congruence.
Qed.

Lemma Qhalf (q : Q) : q / 2 == q * 0.5.
Proof. field. Qed.

(** Case analysis on every comparison of the goal. *)
Ltac qcases :=
  repeat match goal with
  | |- context [Qltb ?a ?b] =>
      let E := fresh "E" in
      destruct (Qltb a b) eqn:E; [apply Qltb_lt in E | apply Qltb_ge in E]
  end.


(** ** Quantization *)

Lemma quantize_range (v : Q) : (0 <= quantize v /\ quantize v <= 4)%Z.
Proof. unfold quantize. qcases; lia. Qed.

Lemma clampIndex_id (i : Z) : (0 <= i /\ i <= 4)%Z -> clampIndex i = i.
Proof.
intros [H0 H4]. unfold clampIndex.
destruct (i <? 0)%Z eqn:E0; [apply Z.ltb_lt in E0; lia |].
destruct (4 <? i)%Z eqn:E4; [apply Z.ltb_lt in E4; lia | reflexivity].
Qed.


(** ** Run parameters and grain *)

Lemma grain_bounds (d : WorldData) (u : Q) :
  0 <= p_atmosphere d -> 0 <= u -> u < 1 ->
  - (grainAmountOf d / 2) <= grainOf d u /\ grainOf d u < grainAmountOf d / 2.
Proof.
intros Ha H0 H1. rewrite Qhalf. unfold grainOf.
assert (Hg : 0 < grainAmountOf d) by (unfold grainAmountOf; lra).
assert (0 <= u * grainAmountOf d) by (apply Qmult_le_0_compat; lra).
assert (0 < (1 - u) * grainAmountOf d) by (apply Qmult_lt_0_compat; lra).
split; lra.
Qed.



(** ** The warped sample *)


(** ** draftColors *)

(** C7: the sentiment does not influence the palette: neither the five
    picks, nor the draws consumed, nor the converted triples; and as
    [generateArt] hands the sentiment to [draftColors] only, two records
    that differ in their sentiment alone give the same raster. *)
Theorem draftColors_ignores_sentiment (season s1 s2 entropy : Q) (seedStr : string) :
  draftColors season s1 entropy seedStr = draftColors season s2 entropy seedStr /\
  draftPicks season s1 entropy seedStr = draftPicks season s2 entropy seedStr /\
  (forall d w h,
     synthesize (with_sentiment s1 d) w h = synthesize (with_sentiment s2 d) w h).
Proof.
split; [reflexivity |]. split; [reflexivity |].
intros d w h. unfold synthesize. cbn [with_sentiment timestamp p_season p_sentiment p_entropy].
destruct (SimplexNoise _) as [sx g0].
destruct (draftColors _ _ _ _) as [colors |]; reflexivity.
Qed.

Lemma pickFrom_eq (arr : list string) (g : rng) :
  pickFrom arr g = (poolEntry arr (fst (draw g)), snd (draw g)).
Proof. unfold pickFrom, poolEntry. destruct (draw g); reflexivity. Qed.

Lemma draftPicks_eq (season sentiment entropy : Q) (seedStr : string) :
  draftPicks season sentiment entropy seedStr =
    (map (fun slot => poolEntry (slotPool season entropy slot) (slotDraw seedStr slot))
         [0; 1; 2; 3; 4]%nat,
     after 5 (seedrandom (seedStr ++ "_COLOR_DRAFT")%string)).
Proof.
unfold draftPicks, push_pick, slotDraw. cbn [map slotPool].
destruct (Qltb 0.6 season), (Qltb 0.5 entropy);
  rewrite !pickFrom_eq; reflexivity.
Qed.

Lemma at_index_elem {A : Type} (arr : list A) (i : Z) (a : A) :
  at_index arr i = Some a -> a ∈ arr.
Proof.
unfold at_index. destruct (i <? 0)%Z; [discriminate |].
intros H. apply list_elem_of_lookup. eauto.
Qed.

Lemma at_index_in_bounds {A : Type} (arr : list A) (i : Z) :
  (0 <= i)%Z -> (i < Z.of_nat (length arr))%Z -> is_Some (at_index arr i).
Proof.
intros H0 H1. unfold at_index.
destruct (i <? 0)%Z eqn:E; [apply Z.ltb_lt in E; lia |].
apply lookup_lt_is_Some. lia.
Qed.

Lemma floor_scaled (u : Q) (n : nat) :
  0 <= u -> u < 1 -> (0 < n)%nat ->
  (0 <= Qfloor (u * ofNat n) /\ Qfloor (u * ofNat n) < Z.of_nat n)%Z.
Proof.
intros H0 H1 Hn. unfold ofNat.
assert (Hpos : 0 < inject_Z (Z.of_nat n))
  by (change 0 with (inject_Z 0); rewrite <- Zlt_Qlt; lia).
split.
- change 0%Z with (Qfloor (inject_Z 0)).
  apply Qfloor_resp_le. change (inject_Z 0) with 0.
  apply Qmult_le_0_compat; lra.
- rewrite Zlt_Qlt.
  apply Qle_lt_trans with (u * inject_Z (Z.of_nat n)); [apply Qfloor_le |].
  assert (0 < (1 - u) * inject_Z (Z.of_nat n))
    by (apply Qmult_lt_0_compat; lra).
  lra.
Qed.

Lemma poolEntry_in_bounds (pool : list string) (u : Q) :
  pool <> [] -> 0 <= u -> u < 1 -> is_Some (poolEntry pool u).
Proof.
intros Hne H0 H1. unfold poolEntry.
assert (0 < length pool)%nat by (destruct pool; [congruence | simpl; lia]).
apply at_index_in_bounds; apply floor_scaled; assumption.
Qed.

Lemma slotPool_cases (season entropy : Q) (slot : nat) :
  slotPool season entropy slot = POOL.dark \/
  slotPool season entropy slot = POOL.vibrant \/
  slotPool season entropy slot = POOL.light.
Proof.
unfold slotPool.
destruct slot as [| [| [| [| ?]]]];
  destruct (Qltb 0.6 season), (Qltb 0.5 entropy); auto.
Qed.

Lemma slotPool_nonempty (season entropy : Q) (slot : nat) :
  slotPool season entropy slot <> [].
Proof.
destruct (slotPool_cases season entropy slot) as [-> | [-> | ->]]; discriminate.
Qed.

Lemma land_255_range (n : Z) : byte_range (Z.land n 255).
Proof.
unfold byte_range. change 255%Z with (Z.ones 8) at 1 2.
rewrite Z.land_ones by lia.
pose proof (Z.mod_pos_bound n (2 ^ 8)) as H. lia.
Qed.

Lemma hexToRgb_range (hex : string) : rgb_range (hexToRgb hex).
Proof. unfold rgb_range, hexToRgb. cbn [fst snd]. repeat split; apply land_255_range. Qed.

Lemma draftColors_eq (season sentiment entropy : Q) (seedStr : string) :
  draftColors season sentiment entropy seedStr =
    mapM (fun slot =>
            hexToRgb <$> poolEntry (slotPool season entropy slot)
                                   (slotDraw seedStr slot))
         [0; 1; 2; 3; 4]%nat.
Proof. unfold draftColors. rewrite draftPicks_eq. reflexivity. Qed.

Lemma draftColors_lookup (season sentiment entropy : Q) (seedStr : string)
    (colors : list RGB) :
  draftColors season sentiment entropy seedStr = Some colors ->
  length colors = 5%nat /\
  forall slot, (slot < 5)%nat ->
    exists c, poolEntry (slotPool season entropy slot) (slotDraw seedStr slot) = Some c /\
              colors !! slot = Some (hexToRgb c).
Proof.
rewrite draftColors_eq. intros H. apply mapM_Some in H.
split; [apply Forall2_length in H; simpl in H; lia |].
intros slot Hs.
assert (Hl : [0; 1; 2; 3; 4]%nat !! slot = Some slot)
  by (destruct slot as [| [| [| [| [| ?]]]]]; [reflexivity .. | lia]).
destruct (Forall2_lookup_l _ _ _ _ _ H Hl) as (rgb & Hrgb & Hf).
destruct (poolEntry _ _) as [c |]; [| discriminate].
exists c. split; [reflexivity |]. simpl in Hf. congruence.
Qed.


Lemma draftColors_total (season sentiment entropy : Q) (seedStr : string) :
  unit_draws ->
  exists colors,
    draftColors season sentiment entropy seedStr = Some colors /\
    length colors = 5%nat /\
    Forall rgb_range colors.
Proof.
intros Hdraw.
assert (Hall : forall slot, exists c,
           poolEntry (slotPool season entropy slot) (slotDraw seedStr slot) = Some c).
{ intros slot. unfold slotDraw.
  destruct (Hdraw (after slot (seedrandom (seedStr ++ "_COLOR_DRAFT")%string)))
    as [H0 H1].
  destruct (poolEntry_in_bounds (slotPool season entropy slot) _
              (slotPool_nonempty season entropy slot) H0 H1) as [c Hc].
  eauto. }
destruct (Hall 0%nat) as [c0 E0], (Hall 1%nat) as [c1 E1],
  (Hall 2%nat) as [c2 E2], (Hall 3%nat) as [c3 E3], (Hall 4%nat) as [c4 E4].
exists [hexToRgb c0; hexToRgb c1; hexToRgb c2; hexToRgb c3; hexToRgb c4].
split; [| split; [reflexivity |]].
- rewrite draftColors_eq. cbn [mapM]. rewrite E0, E1, E2, E3, E4. reflexivity.
- do 5 (constructor; [apply hexToRgb_range |]). constructor.
Qed.

(** C6: with draws in [0, 1) every pool index is within bounds, and
    [draftColors] returns five triples whose channels are integers in
    0..255, whatever the season, sentiment and entropy. *)
Theorem draftColors_shape (season sentiment entropy : Q) (seedStr : string) :
  unit_draws ->
  (forall pool u, pool <> [] -> 0 <= u -> u < 1 -> is_Some (poolEntry pool u)) /\
  (forall slot,
     is_Some (poolEntry (slotPool season entropy slot) (slotDraw seedStr slot))) /\
  exists colors,
    draftColors season sentiment entropy seedStr = Some colors /\
    length colors = 5%nat /\
    Forall rgb_range colors.
Proof.
intros Hdraw. split; [apply poolEntry_in_bounds |]. split.
- intros slot. unfold slotDraw.
  destruct (Hdraw (after slot (seedrandom (seedStr ++ "_COLOR_DRAFT")%string)))
    as [H0 H1].
  apply poolEntry_in_bounds; [apply slotPool_nonempty | exact H0 | exact H1].
- now apply draftColors_total.
Qed.

(** ** Loops *)

Lemma for_range_inv {St : Type} (P : nat -> St -> Prop)
    (body : nat -> St -> option St) (n i : nat) (s s' : St) :
  (forall k t t', (i <= k)%nat -> (k < i + n)%nat ->
     P k t -> body k t = Some t' -> P (S k) t') ->
  P i s -> for_range i n body s = Some s' -> P (i + n)%nat s'.
Proof.
revert i s. induction n as [| n IH]; intros i s Hstep Hi Hrun.
- simpl in Hrun. injection Hrun as <-. now rewrite Nat.add_0_r.
- simpl in Hrun. destruct (body i s) as [t |] eqn:Hb; [| discriminate].
  replace (i + S n)%nat with (S i + n)%nat by lia.
  apply (IH (S i) t); [| | exact Hrun].
  + intros k u u' Hk1 Hk2. apply Hstep; lia.
  + apply (Hstep i s t); [lia | lia | exact Hi | exact Hb].
Qed.

Lemma for_range_total {St : Type} (body : nat -> St -> option St)
    (n i : nat) (s : St) :
  (forall k t, is_Some (body k t)) -> is_Some (for_range i n body s).
Proof.
intros Hb. revert i s. induction n as [| n IH]; intros i s; simpl.
- eauto.
- destruct (Hb i s) as [t ->]. apply IH.
Qed.

(** The suspensions change the page only: the locals after the rows
    are those of the loop run without them. *)
Lemma rows_locals (w : nat) (d : WorldData) (sx : simplex) (colors : list RGB)
    (zoom distortion : Q) (env : Env) (n y : nat) (page : Host) (st : Locals) :
  snd (rows w d sx colors zoom distortion env y n page st) =
    for_range y n
      (fun y => for_range 0 w (pixel w d sx colors zoom distortion y)) st.
Proof.
revert y page st. induction n as [| n IH]; intros y page st; simpl.
- reflexivity.
- destruct (for_range 0 w _ st) as [st' |]; [apply IH | reflexivity].
Qed.

Lemma generateArtAt_produced (w h : nat) (d : WorldData) (env : Env) (page : Host) :
  produced (generateArtAt w h d env page) = synthesize d w h.
Proof.
unfold generateArtAt, synthesize, pixelLoop.
destruct (SimplexNoise _) as [sx g0].
destruct (draftColors _ _ _ _) as [colors |]; [| reflexivity].
cbn [createImageData data width height].
pose proof (rows_locals w d sx colors (zoomOf d) (distortionOf d) env h 0
              {| timestampDisplay := toLocaleDateString (timestamp d);
                 canvasBitmap := canvasBitmap page;
                 currentWorldData := currentWorldData page;
                 lastGeneratedImageData := lastGeneratedImageData page |}
              (g0, replicate (w * h * 4) 0%Z)) as Hl.
destruct (rows _ _ _ _ _ _ _ _ _ _ _) as [page' [[g' pixels] |]];
  cbn [snd] in Hl; rewrite <- Hl; reflexivity.
Qed.

(** C8: the raster a call produces, whatever the other tasks do to the
    page at each suspension, is the raster of the pixel loop run
    without suspension; in particular it is the raster of a call during
    which no other task runs. *)
Theorem chunking_preserves_raster (w h : nat) (d : WorldData) (env : Env)
    (page : Host) :
  produced (generateArtAt w h d env page) = synthesize d w h /\
  produced (generateArtAt w h d env page) =
    produced (generateArtAt w h d (fun _ p => p) page) /\
  produced (generateArt d env page) = synthesize d CANVAS_WIDTH CANVAS_HEIGHT.
Proof.
split; [apply generateArtAt_produced |].
split; [now rewrite !generateArtAt_produced |].
apply generateArtAt_produced.
Qed.

(** C1: the raster is a function of the record and the dimensions: two
    calls on the same record produce the same raster, whatever the page
    they start from (its text, canvas and stored images, so whatever
    the calls made before) and whatever happens to the page while they
    are suspended; so does a second call that starts from the page the
    first one left. *)
Theorem generateArt_deterministic (w h : nat) (d : WorldData) (env1 env2 : Env)
    (page1 page2 : Host) :
  produced (generateArtAt w h d env1 page1) =
    produced (generateArtAt w h d env2 page2) /\
  produced (generateArt d env1 page1) = produced (generateArt d env2 page2) /\
  (forall page', generateArtAt w h d env1 page1 = Fulfilled page' ->
     produced (generateArtAt w h d env2 page') = lastGeneratedImageData page').
Proof.
split; [now rewrite !generateArtAt_produced |].
split; [unfold generateArt; now rewrite !generateArtAt_produced |].
intros page' H. rewrite generateArtAt_produced.
rewrite <- (generateArtAt_produced w h d env1 page1), H. reflexivity.
Qed.

(** ** The stored bytes *)

Lemma Qle_bool_false (a b : Q) : Qle_bool a b = false -> b < a.
Proof.
intros E. destruct (Qlt_le_dec b a) as [H | H]; [exact H |].
apply Qle_bool_iff in H. congruence.
Qed.

Lemma toUint8Clamp_low (v : Q) : v <= 0 -> toUint8Clamp v = 0%Z.
Proof.
intros H. unfold toUint8Clamp. apply Qle_bool_iff in H. now rewrite H.
Qed.

Lemma toUint8Clamp_high (v : Q) : 255 <= v -> toUint8Clamp v = 255%Z.
Proof.
intros H. unfold toUint8Clamp.
destruct (Qle_bool v 0) eqn:E0; [apply Qle_bool_iff in E0; lra |].
apply Qle_bool_iff in H. now rewrite H.
Qed.

(** Between the bounds the floor is a byte below 255. *)
Lemma floor_inside (v : Q) :
  0 < v -> v < 255 -> (0 <= Qfloor v /\ Qfloor v <= 254)%Z.
Proof.
intros H0 H1.
pose proof (Qfloor_le v) as Hlo. pose proof (Qlt_floor v) as Hhi.
split.
- assert (H : inject_Z 0 < inject_Z (Qfloor v + 1)) by (change (inject_Z 0) with 0; lra).
  rewrite <- Zlt_Qlt in H. lia.
- assert (H : inject_Z (Qfloor v) < inject_Z 255) by (change (inject_Z 255) with 255; lra).
  rewrite <- Zlt_Qlt in H. lia.
Qed.

Lemma toUint8Clamp_range (v : Q) : byte_range (toUint8Clamp v).
Proof.
unfold byte_range, toUint8Clamp.
destruct (Qle_bool v 0) eqn:E0; [lia |].
destruct (Qle_bool 255 v) eqn:E1; [lia |].
apply Qle_bool_false in E0, E1.
pose proof (floor_inside v E0 E1).
destruct (Qltb _ v); [lia |].
destruct (Qltb v _); [lia |].
destruct (Z.even _); lia.
Qed.

(** Between the bounds the stored byte is a nearest integer. *)
Lemma toUint8Clamp_nearest (v : Q) :
  0 < v -> v < 255 ->
  - 0.5 <= ofZ (toUint8Clamp v) - v /\ ofZ (toUint8Clamp v) - v <= 0.5.
Proof.
intros H0 H1. unfold toUint8Clamp.
destruct (Qle_bool v 0) eqn:E0; [apply Qle_bool_iff in E0; lra |].
destruct (Qle_bool 255 v) eqn:E1; [apply Qle_bool_iff in E1; lra |].
pose proof (Qfloor_le v) as Hlo. pose proof (Qlt_floor v) as Hhi.
unfold ofZ in *. rewrite inject_Z_plus in Hhi. change (inject_Z 1) with 1 in Hhi.
qcases; try destruct (Z.even _);
  rewrite ?inject_Z_plus; change (inject_Z 1) with 1;
  first [split; lra | exfalso; lra].
Qed.

Lemma colIndexOf_range (value grain : Q) :
  (0 <= colIndexOf value grain /\ colIndexOf value grain <= 4)%Z.
Proof.
unfold colIndexOf. rewrite clampIndex_id; apply quantize_range.
Qed.

Lemma after_S (n : nat) (g : rng) : after (S n) g = snd (draw (after n g)).
Proof. reflexivity. Qed.

Section Raster.
Variables (w h : nat) (d : WorldData) (sx : simplex) (colors : list RGB).
Variables (zoom distortion : Q) (g0 : rng).

Local Abbreviation written := (written w d sx colors zoom distortion g0).
Local Abbreviation loop_inv := (loop_inv w h d sx colors zoom distortion g0).
Local Abbreviation pixelGrain := (pixelGrain w d g0).

Lemma pixel_step (x y : nat) (st st' : Locals) :
  (x < w)%nat -> (y < h)%nat -> loop_inv y x st ->
  pixel w d sx colors zoom distortion y x st = Some st' ->
  loop_inv y (S x) st'.
Proof.
intros Hx Hy (Hg & Hlen & Hold) Hp. destruct st as [g px].
cbn [fst snd] in Hg, Hlen, Hold. subst g. unfold pixel in Hp.
destruct (draw (after (y * w + x) g0)) as [u g'] eqn:Ed.
destruct (at_index colors _) as [[[r0 gr0] b0] |] eqn:Ec; [| discriminate].
injection Hp as <-. unfold loop_inv. cbn [fst snd].
assert (Hj : (y * w + x < w * h)%nat) by nia.
split; [| split].
- replace (y * w + S x)%nat with (S (y * w + x)) by lia.
  now rewrite after_S, Ed.
- now rewrite !length_insert.
- intros x' y' Hx' Hdone.
  destruct (decide (y' = y /\ x' = x)) as [[-> ->] | Hne].
  + exists (r0, gr0, b0). unfold pixelGrain. rewrite Ed. cbn [fst].
    split; [exact Ec |]. unfold stored. cbn [fst snd].
    repeat split.
    * rewrite !list_lookup_insert_ne by lia.
      apply list_lookup_insert_eq. lia.
    * rewrite !list_lookup_insert_ne by lia.
      apply list_lookup_insert_eq. rewrite !length_insert. lia.
    * rewrite !list_lookup_insert_ne by lia.
      apply list_lookup_insert_eq. rewrite !length_insert. lia.
    * apply list_lookup_insert_eq. rewrite !length_insert. lia.
  + assert (Hbefore : (y' * w + x' < y * w + x)%nat) by nia.
    destruct (Hold x' y' Hx') as (c & Hc & H0 & H1 & H2 & H3); [lia |].
    exists c. split; [exact Hc |]. unfold stored in *.
    rewrite !list_lookup_insert_ne by lia. auto.
Qed.

Lemma row_step (y : nat) (st st' : Locals) :
  (y < h)%nat -> loop_inv y 0 st ->
  for_range 0 w (pixel w d sx colors zoom distortion y) st = Some st' ->
  loop_inv (S y) 0 st'.
Proof.
intros Hy Hinv Hrun.
apply (for_range_inv (fun x => loop_inv y x)) in Hrun; [| | exact Hinv].
- destruct Hrun as (Hg & Hlen & Hold). split; [| split].
  + rewrite Hg. f_equal. lia.
  + exact Hlen.
  + intros x' y' Hx' Hdone. apply Hold; [exact Hx' | lia].
- intros x t t' _ Hx. apply pixel_step; [lia | exact Hy].
Qed.

Lemma pixel_bytes (x y : nat) (st st' : Locals) :
  Forall byte_range st.2 ->
  pixel w d sx colors zoom distortion y x st = Some st' ->
  Forall byte_range st'.2.
Proof.
destruct st as [g px]. cbn [snd]. intros Hall Hp. unfold pixel in Hp.
destruct (draw g) as [u g'].
destruct (at_index colors _) as [[[r0 gr0] b0] |]; [| discriminate].
injection Hp as <-. cbn [snd].
repeat apply Forall_insert; try apply toUint8Clamp_range; [exact Hall |].
unfold byte_range; lia.
Qed.

Lemma pixel_total (x y : nat) (st : Locals) :
  length colors = 5%nat ->
  is_Some (pixel w d sx colors zoom distortion y x st).
Proof.
intros Hlen. destruct st as [g px]. unfold pixel. destruct (draw g) as [u g'].
destruct (at_index_in_bounds colors
            (colIndexOf (warpedValue sx zoom distortion x y) (grainOf d u)))
  as [[[r0 gr0] b0] ->]; [apply colIndexOf_range | | eauto].
pose proof (colIndexOf_range (warpedValue sx zoom distortion x y) (grainOf d u)).
lia.
Qed.

Lemma pixelLoop_total (st : Locals) :
  length colors = 5%nat ->
  is_Some (pixelLoop w h d sx colors zoom distortion st).
Proof.
intros Hlen. unfold pixelLoop. apply for_range_total.
intros y t. apply for_range_total. intros x t'. now apply pixel_total.
Qed.

Lemma pixelLoop_written (g' : rng) (pixels : list Z) :
  pixelLoop w h d sx colors zoom distortion (g0, replicate (w * h * 4) 0%Z)
    = Some (g', pixels) ->
  length pixels = (w * h * 4)%nat /\
  (forall x y, (x < w)%nat -> (y < h)%nat -> written pixels x y) /\
  Forall byte_range pixels.
Proof.
intros Hrun. unfold pixelLoop in Hrun. split; [| split].
- apply (for_range_inv (fun y => loop_inv y 0)) in Hrun.
  + destruct Hrun as (_ & Hlen & _). exact Hlen.
  + intros y t t' _ Hy. apply row_step. lia.
  + split; [reflexivity | split; [apply length_replicate | intros; lia]].
- apply (for_range_inv (fun y => loop_inv y 0)) in Hrun.
  + destruct Hrun as (_ & _ & Hold). intros x y Hx Hy.
    apply Hold; [exact Hx | lia].
  + intros y t t' _ Hy. apply row_step. lia.
  + split; [reflexivity | split; [apply length_replicate | intros; lia]].
- apply (for_range_inv (fun _ st => Forall byte_range st.2)) in Hrun.
  + exact Hrun.
  + intros y t t' _ _ Ht Hrow.
    apply (for_range_inv (fun _ st => Forall byte_range st.2)) in Hrow; [exact Hrow | | exact Ht].
    intros x u u' _ _. apply pixel_bytes.
  + cbn [snd]. apply Forall_replicate. unfold byte_range; lia.
Qed.
End Raster.


(** C9, as the code has it: no field of the record is checked.  With
    draws in [0, 1) a call on any record, its signals in [0, 1] or not,
    is fulfilled and stores and shows a complete raster; a call is
    rejected only when the palette cannot be drafted, before an image is
    created, and then leaves the canvas and the stored image as they
    were; a fulfilled call has stored a complete raster. *)
Theorem generateArt_unvalidated (w h : nat) (d : WorldData) (env : Env)
    (page : Host) :
  (unit_draws ->
     exists page' img,
       generateArtAt w h d env page = Fulfilled page' /\
       lastGeneratedImageData page' = Some img /\
       canvasBitmap page' = data img /\
       width img = w /\ height img = h /\
       length (data img) = (w * h * 4)%nat) /\
  (forall page', generateArtAt w h d env page = Rejected page' ->
     draftColors (p_season d) (p_sentiment d) (p_entropy d)
       (timestamp d ++ "_RETRO_V7")%string = None /\
     page' = {| timestampDisplay := toLocaleDateString (timestamp d);
                canvasBitmap := canvasBitmap page;
                currentWorldData := currentWorldData page;
                lastGeneratedImageData := lastGeneratedImageData page |}) /\
  (forall page', generateArtAt w h d env page = Fulfilled page' ->
     exists img,
       lastGeneratedImageData page' = Some img /\
       canvasBitmap page' = data img /\
       width img = w /\ height img = h /\
       length (data img) = (w * h * 4)%nat).
Proof.
assert (Hful : forall page', generateArtAt w h d env page = Fulfilled page' ->
          exists img,
            lastGeneratedImageData page' = Some img /\
            canvasBitmap page' = data img /\
            width img = w /\ height img = h /\
            length (data img) = (w * h * 4)%nat).
{ intros page' H.
  pose proof (generateArtAt_produced w h d env page) as Hp.
  rewrite H in Hp. cbn [produced] in Hp.
  unfold generateArtAt in H. unfold synthesize in Hp.
  destruct (SimplexNoise _) as [sx g0].
  destruct (draftColors _ _ _ _) as [colors |]; [| discriminate].
  destruct (pixelLoop _ _ _ _ _ _ _ _) as [[g' pixels] |] eqn:Hloop;
    [| destruct (rows _ _ _ _ _ _ _ _ _ _ _) as [? [[? ?] |]];
       [injection H as <-; discriminate | discriminate]].
  apply pixelLoop_written in Hloop as (Hlen & _ & _).
  destruct (rows _ _ _ _ _ _ _ _ _ _ _) as [page1 [[g1 pixels1] |]]; [| discriminate].
  injection H as <-. cbn [lastGeneratedImageData canvasBitmap] in *.
  injection Hp as ->. eexists. repeat split. exact Hlen. }
assert (Hrej : forall page', generateArtAt w h d env page = Rejected page' ->
          draftColors (p_season d) (p_sentiment d) (p_entropy d)
            (timestamp d ++ "_RETRO_V7")%string = None /\
          page' = {| timestampDisplay := toLocaleDateString (timestamp d);
                     canvasBitmap := canvasBitmap page;
                     currentWorldData := currentWorldData page;
                     lastGeneratedImageData := lastGeneratedImageData page |}).
{ intros page' H. unfold generateArtAt in H.
  destruct (SimplexNoise _) as [sx g0].
  destruct (draftColors _ _ _ _) as [colors |] eqn:Hc.
  - exfalso. apply draftColors_lookup in Hc as [Hlen _].
    cbn [createImageData data] in H.
    pose proof (rows_locals w d sx colors (zoomOf d) (distortionOf d) env h 0
                  {| timestampDisplay := toLocaleDateString (timestamp d);
                     canvasBitmap := canvasBitmap page;
                     currentWorldData := currentWorldData page;
                     lastGeneratedImageData := lastGeneratedImageData page |}
                  (g0, replicate (w * h * 4) 0%Z)) as Hl.
    destruct (pixelLoop_total w h d sx colors (zoomOf d) (distortionOf d)
                (g0, replicate (w * h * 4) 0%Z) Hlen) as [st Hst].
    unfold pixelLoop in Hst. rewrite Hst in Hl.
    destruct (rows _ _ _ _ _ _ _ _ _ _ _) as [page1 [[g1 pixels1] |]];
      [discriminate | cbn [snd] in Hl; discriminate].
  - injection H as <-. split; reflexivity. }
split; [| split; [exact Hrej | exact Hful]].
intros Hdraw.
destruct (generateArtAt w h d env page) as [page' | page'] eqn:Hrun.
- destruct (Hful page' eq_refl) as (img & H). exists page', img. split; [reflexivity | exact H].
- exfalso. destruct (Hrej page' eq_refl) as [Hnone _].
  destruct (draftColors_total (p_season d) (p_sentiment d) (p_entropy d)
              (timestamp d ++ "_RETRO_V7")%string Hdraw) as (colors & Hc & _).
  congruence.
Qed.

(** * Further properties *)

(** ** Colour strings *)

Lemma hexDigit_range (c : ascii) (d : Z) :
  hexDigit c = Some d -> (0 <= d /\ d <= 15)%Z.
Proof.
unfold hexDigit. cbv zeta.
repeat match goal with
| |- context [(?a <=? ?b)%Z] => destruct (Z.leb_spec a b)
end; cbn [andb]; intros [= <-]; lia.
Qed.

Lemma hexPrefix_allHex (s : string) (acc : option Z) :
  allHex s = true -> s <> EmptyString ->
  hexPrefix s acc = Some (hexValue s (default 0%Z acc)).
Proof.
revert acc. induction s as [| c s IH]; intros acc H Hne; [congruence |].
cbn [allHex] in H. cbn [hexPrefix hexValue].
destruct (hexDigit c) as [d |]; [| discriminate]. cbn [default].
destruct s as [| c' s']; [reflexivity |].
rewrite IH; [reflexivity | exact H | discriminate].
Qed.

Lemma hexValue_bound (s : string) (acc : Z) :
  allHex s = true -> (0 <= acc)%Z ->
  (0 <= hexValue s acc /\ hexValue s acc < 16 ^ Z.of_nat (String.length s) * (acc + 1))%Z.
Proof.
revert acc. induction s as [| c s IH]; intros acc H Hacc.
- cbn [hexValue String.length]. change (16 ^ Z.of_nat 0)%Z with 1%Z. lia.
- cbn [allHex] in H. cbn [hexValue String.length].
  destruct (hexDigit c) as [d |] eqn:Hd; [| discriminate]. cbn [default].
  apply hexDigit_range in Hd.
  destruct (IH (16 * acc + d)%Z H ltac:(lia)) as [Hlo Hhi].
  split; [exact Hlo |].
  rewrite Nat2Z.inj_succ, Z.pow_succ_r by lia.
  set (P := (16 ^ Z.of_nat (String.length s))%Z) in *.
  assert (0 < P)%Z by (apply Z.pow_pos_nonneg; lia).
  assert (P * (16 * acc + d + 1) <= P * (16 * acc + 16))%Z
    by (apply Z.mul_le_mono_nonneg_l; lia).
  clearbody P. unfold id. lia.
Qed.

(** A string of hexadecimal digits has no white space, sign or [0x]
    for [parseInt] to skip. *)
Lemma parseInt16_allHex (s : string) :
  allHex s = true -> s <> EmptyString -> parseInt16 s = Some (hexValue s 0%Z).
Proof.
intros H Hne. pose proof (hexPrefix_allHex s None H Hne) as Hp.
change (default 0%Z None) with 0%Z in Hp.
destruct s as [| c1 s1]; [congruence |].
cbn [allHex] in H.
destruct (hexDigit c1) as [d1 |] eqn:E1; [| discriminate].
unfold parseInt16. cbn [skipWhite].
assert (Hw : isWhite c1 = false)
  by (destruct c1 as [[] [] [] [] [] [] [] []]; try reflexivity;
      vm_compute in E1; discriminate).
rewrite Hw.
destruct (Ascii.eqb_spec c1 "0") as [-> | Hc1].
- destruct s1 as [| c2 s2]; [reflexivity |].
  cbn [allHex] in H.
  destruct (hexDigit c2) as [d2 |] eqn:E2; [| discriminate].
  destruct c2 as [[] [] [] [] [] [] [] []]; vm_compute in E2; try discriminate;
    cbv beta iota zeta; rewrite Hp; f_equal; lia.
- destruct c1 as [[] [] [] [] [] [] [] []]; vm_compute in E1; try discriminate;
    try congruence; cbv beta iota zeta; rewrite Hp; f_equal; lia.
Qed.

Lemma replace_hash_allHex (s : string) : allHex s = true -> replace_hash s = s.
Proof.
induction s as [| c s IH]; [reflexivity |]. cbn [allHex replace_hash].
destruct (hexDigit c) as [d |] eqn:E; [| discriminate]. intros H.
destruct (Ascii.eqb_spec c "#") as [-> | _]; [vm_compute in E; discriminate |].
now rewrite IH.
Qed.

Lemma toInt32_small (n : Z) : (0 <= n < 2 ^ 31)%Z -> toInt32 (Some n) = n.
Proof. intros H. unfold toInt32. rewrite Z.mod_small; lia. Qed.

Lemma channels_of_int (n : Z) :
  (Z.land (Z.shiftr n 16) 255, Z.land (Z.shiftr n 8) 255, Z.land n 255) =
  ((n / 65536) mod 256, (n / 256) mod 256, n mod 256)%Z.
Proof.
change 255%Z with (Z.ones 8). rewrite !Z.land_ones, !Z.shiftr_div_pow2 by lia.
reflexivity.
Qed.

Lemma hexToRgb_hexValue (s : string) :
  allHex s = true -> s <> EmptyString -> (String.length s <= 7)%nat ->
  hexToRgb (String "#" s) =
    ((hexValue s 0 / 65536) mod 256, (hexValue s 0 / 256) mod 256,
     hexValue s 0 mod 256)%Z /\
  hexToRgb s = hexToRgb (String "#" s).
Proof.
intros H Hne Hlen.
assert (Hn : (0 <= hexValue s 0 < 2 ^ 31)%Z).
{ destruct (hexValue_bound s 0%Z H ltac:(lia)) as [Hlo Hhi]. split; [exact Hlo |].
  assert (16 ^ Z.of_nat (String.length s) <= 16 ^ 7)%Z
    by (apply Z.pow_le_mono_r; lia).
  lia. }
assert (E : hexToRgb (String "#" s) =
            ((hexValue s 0 / 65536) mod 256, (hexValue s 0 / 256) mod 256,
             hexValue s 0 mod 256)%Z).
{ unfold hexToRgb. change (replace_hash (String "#" s)) with s.
  rewrite (parseInt16_allHex s H Hne), (toInt32_small _ Hn).
  apply channels_of_int. }
split; [exact E |]. rewrite E. unfold hexToRgb.
rewrite (replace_hash_allHex s H), (parseInt16_allHex s H Hne), (toInt32_small _ Hn).
apply channels_of_int.
Qed.

(** X2: a colour string of one to seven hexadecimal digits, with or
    without the leading ["#"], is read as one number, whose three low
    bytes are the channels: a shorter string is not stretched, so the
    three digits of a short form give (0, first, 16 * second + third). *)
Theorem hexToRgb_digits (s : string) :
  allHex s = true -> s <> EmptyString -> (String.length s <= 7)%nat ->
  hexToRgb (String "#" s) =
    ((hexValue s 0 / 65536) mod 256, (hexValue s 0 / 256) mod 256,
     hexValue s 0 mod 256)%Z /\
  hexToRgb s = hexToRgb (String "#" s) /\
  (forall c1 c2 c3 d1 d2 d3,
     s = String c1 (String c2 (String c3 EmptyString)) ->
     hexDigit c1 = Some d1 -> hexDigit c2 = Some d2 -> hexDigit c3 = Some d3 ->
     hexToRgb (String "#" s) = (0, d1, 16 * d2 + d3)%Z).
Proof.
intros H Hne Hlen. destruct (hexToRgb_hexValue s H Hne Hlen) as [E E'].
split; [exact E |]. split; [exact E' |].
intros c1 c2 c3 d1 d2 d3 -> H1 H2 H3. rewrite E.
assert (Hv : hexValue (String c1 (String c2 (String c3 EmptyString))) 0 =
             (256 * d1 + 16 * d2 + d3)%Z).
{ cbn [hexValue]. rewrite H1, H2, H3. cbn [default from_option]. unfold id. lia. }
rewrite Hv. apply hexDigit_range in H1, H2, H3.
f_equal; [f_equal |]; Z.div_mod_to_equations; lia.
Qed.

(** X1: a colour ["#RRGGBB"], its six digits in either case, is read as
    the three bytes RR, GG and BB. *)
Theorem hexToRgb_six_digits (c1 c2 c3 c4 c5 c6 : ascii) (d1 d2 d3 d4 d5 d6 : Z) :
  hexDigit c1 = Some d1 -> hexDigit c2 = Some d2 -> hexDigit c3 = Some d3 ->
  hexDigit c4 = Some d4 -> hexDigit c5 = Some d5 -> hexDigit c6 = Some d6 ->
  hexToRgb (String "#" (String c1 (String c2 (String c3 (String c4
              (String c5 (String c6 EmptyString))))))) =
    (16 * d1 + d2, 16 * d3 + d4, 16 * d5 + d6)%Z.
Proof using Type.
clear.
intros H1 H2 H3 H4 H5 H6.
set (s := String c1 (String c2 (String c3 (String c4 (String c5 (String c6 EmptyString)))))).
assert (Hs : allHex s = true) by (cbn [s allHex]; now rewrite H1, H2, H3, H4, H5, H6).
destruct (hexToRgb_hexValue s Hs) as [E _]; [discriminate | cbn; lia |].
rewrite E.
assert (Hv : hexValue s 0 =
             (1048576 * d1 + 65536 * d2 + 4096 * d3 + 256 * d4 + 16 * d5 + d6)%Z).
{ cbn [s hexValue]. rewrite H1, H2, H3, H4, H5, H6. cbn [default from_option].
  unfold id. lia. }
rewrite Hv.
apply hexDigit_range in H1, H2, H3, H4, H5, H6.
f_equal; [f_equal |]; Z.div_mod_to_equations; lia.
Qed.

(** ** Palettes *)

Lemma pool_brightness :
  forallb (fun s => (brightness (hexToRgb s) <=? 234)%Z) POOL.dark = true /\
  forallb (fun s => (583 <=? brightness (hexToRgb s))%Z) POOL.light = true.
Proof. split; vm_compute; reflexivity. Qed.

Lemma dark_is_dark (s : string) :
  s ∈ POOL.dark -> (brightness (hexToRgb s) <= 234)%Z.
Proof.
intros H. apply list_elem_of_In in H.
apply Z.leb_le. revert s H. apply forallb_forall. apply pool_brightness.
Qed.

Lemma light_is_light (s : string) :
  s ∈ POOL.light -> (583 <= brightness (hexToRgb s))%Z.
Proof.
intros H. apply list_elem_of_In in H.
apply Z.leb_le. revert s H. apply forallb_forall. apply pool_brightness.
Qed.

(** X3: in every palette [draftColors] returns, slots 0 and 2 are a
    dark and a light colour, the season deciding which comes first: the
    channels of one sum to at most 234, those of the other to at least
    583. *)
Theorem palette_contrast (season sentiment entropy : Q) (seedStr : string)
    (colors : list RGB) :
  draftColors season sentiment entropy seedStr = Some colors ->
  exists c0 c2,
    colors !! 0%nat = Some c0 /\ colors !! 2%nat = Some c2 /\
    if Qltb 0.6 season
    then (brightness c0 <= 234 /\ 583 <= brightness c2)%Z
    else (583 <= brightness c0 /\ brightness c2 <= 234)%Z.
Proof.
intros H. apply draftColors_lookup in H as [_ H].
destruct (H 0%nat ltac:(lia)) as (s0 & Hs0 & Hl0).
destruct (H 2%nat ltac:(lia)) as (s2 & Hs2 & Hl2).
apply at_index_elem in Hs0, Hs2. cbn [slotPool] in Hs0, Hs2.
exists (hexToRgb s0), (hexToRgb s2). split; [exact Hl0 |]. split; [exact Hl2 |].
destruct (Qltb 0.6 season).
- split; [now apply dark_is_dark | now apply light_is_light].
- split; [now apply light_is_light | now apply dark_is_dark].
Qed.



(** ** Dithering *)

Lemma grain_small (d : WorldData) (u : Q) :
  in_range d -> 0 <= u -> u < 1 -> -0.1 <= grainOf d u /\ grainOf d u < 0.1.
Proof.
intros (_ & _ & _ & _ & [Ha0 Ha1]) H0 H1.
destruct (grain_bounds d u Ha0 H0 H1) as [Hlo Hhi].
rewrite Qhalf in Hlo, Hhi.
assert (grainAmountOf d <= 0.2) by (unfold grainAmountOf; lra).
split; lra.
Qed.

(** X5: for a record with signals in [0, 1] the grain moves a pixel by
    at most one bucket: the colour index of a pixel differs by at most
    one from the index its undithered value would get. *)
Theorem dither_one_bucket (d : WorldData) (u value : Q) :
  in_range d -> 0 <= u -> u < 1 ->
  (-1 <= colIndexOf value (grainOf d u) - quantize value <= 1)%Z.
Proof.
intros Hd H0 H1. destruct (grain_small d u Hd H0 H1) as [Hlo Hhi].
generalize dependent (grainOf d u). intros t Hlo Hhi.
unfold colIndexOf. rewrite clampIndex_id by apply quantize_range.
unfold quantize. qcases; first [lia | exfalso; lra].
Qed.

Lemma channel_within_3 (c : Z) (t : Q) :
  byte_range c -> -3 <= t -> t < 3 ->
  (-3 <= toUint8Clamp (ofZ c + t) - c <= 3)%Z.
Proof.
intros [Hc0 Hc1] Hlo Hhi.
assert (Q0 : 0 <= ofZ c) by (unfold ofZ; change 0 with (inject_Z 0); now rewrite <- Zle_Qle).
assert (Q1 : ofZ c <= 255)
  by (unfold ofZ; change 255 with (inject_Z 255); now rewrite <- Zle_Qle).
destruct (Qlt_le_dec 0 (ofZ c + t)) as [Hpos | Hneg].
- destruct (Qlt_le_dec (ofZ c + t) 255) as [Hin | Hbig].
  + destruct (toUint8Clamp_nearest _ Hpos Hin) as [Ha Hb].
    generalize dependent (toUint8Clamp (ofZ c + t)). intros r Ha Hb.
    unfold ofZ in *.
    assert (A : inject_Z (r - c) < inject_Z 4)
      by (unfold Zminus; rewrite inject_Z_plus, inject_Z_opp;
          change (inject_Z 4) with 4; lra).
    assert (B : inject_Z (-4) < inject_Z (r - c))
      by (unfold Zminus; rewrite inject_Z_plus, inject_Z_opp;
          change (inject_Z (-4)) with (-4); lra).
    rewrite <- Zlt_Qlt in A, B. lia.
  + rewrite toUint8Clamp_high by exact Hbig.
    assert (A : inject_Z 252 < inject_Z c)
      by (change (inject_Z 252) with 252; unfold ofZ in *; lra).
    rewrite <- Zlt_Qlt in A. lia.
- rewrite toUint8Clamp_low by exact Hneg.
  assert (A : inject_Z c <= inject_Z 3)
    by (change (inject_Z 3) with 3; unfold ofZ in *; lra).
  rewrite <- Zle_Qle in A. lia.
Qed.

(** X6: for a record with signals in [0, 1] and draws in [0, 1), every
    pixel of the raster is opaque and within three levels per channel of
    one of the five palette colours. *)
Theorem raster_near_palette (w h : nat) (d : WorldData) (env : Env)
    (page : Host) (img : ImageData) :
  in_range d -> unit_draws ->
  produced (generateArtAt w h d env page) = Some img ->
  exists colors,
    draftColors (p_season d) (p_sentiment d) (p_entropy d)
      (timestamp d ++ "_RETRO_V7")%string = Some colors /\
    forall x y, (x < w)%nat -> (y < h)%nat ->
      exists c, c ∈ colors /\ pixel_near w (data img) x y c.
Proof.
intros Hd Hdraw H. rewrite generateArtAt_produced in H. unfold synthesize in H.
destruct (SimplexNoise _) as [sx g0].
destruct (draftColors_total (p_season d) (p_sentiment d) (p_entropy d)
            (timestamp d ++ "_RETRO_V7")%string Hdraw) as (colors & Hc & _ & Hrange).
rewrite Hc in H. exists colors. split; [exact Hc |].
destruct (pixelLoop _ _ _ _ _ _ _ _) as [[g' pixels] |] eqn:Hloop; [| discriminate].
injection H as <-. cbn [data].
apply pixelLoop_written in Hloop as (_ & Hw & _).
intros x y Hx Hy. destruct (Hw x y Hx Hy) as (c & Hidx & H0 & H1 & H2 & H3).
apply at_index_elem in Hidx. exists c. split; [exact Hidx |].
rewrite Forall_forall in Hrange. destruct (Hrange c Hidx) as (Br & Bg & Bb).
unfold pixelGrain in *.
destruct (Hdraw (after (y * w + x) g0)) as [Hu0 Hu1].
destruct (grain_small d _ Hd Hu0 Hu1) as [Hlo Hhi].
generalize dependent (grainOf d (fst (draw (after (y * w + x) g0)))).
intros t H0 H1 H2 Hlo Hhi.
unfold pixel_near. cbv zeta. do 3 eexists.
split; [exact H0 |]. split; [exact H1 |]. split; [exact H2 |]. split; [exact H3 |].
repeat split; apply channel_within_3; try assumption; lra.
Qed.

(** ** The state containers *)

Lemma switchState_shown (stateName : string) (d : Dom) :
  (shown (introState (switchState stateName d)) <-> stateName = "intro"%string) /\
  (shown (loadingState (switchState stateName d)) <-> stateName = "loading"%string) /\
  (shown (artState (switchState stateName d)) <-> stateName = "art"%string).
Proof using Type.
clear.
unfold shown, switchState. cbn [introState loadingState artState].
split; [| split].
- destruct (String.eqb_spec stateName "intro"); set_solver.
- destruct (String.eqb_spec stateName "loading"); set_solver.
- destruct (String.eqb_spec stateName "art"); set_solver.
Qed.

Lemma switchState_twice (a b : string) (d : Dom) :
  switchState b (switchState a d) = switchState b d.
Proof using Type.
clear.
unfold switchState. cbn [introState loadingState artState].
f_equal.
- destruct (String.eqb a "intro"), (String.eqb b "intro");
    apply set_eq; intros x; destruct (decide (x = "hidden"%string)); set_solver.
- destruct (String.eqb a "loading"), (String.eqb b "loading");
    apply set_eq; intros x; destruct (decide (x = "hidden"%string)); set_solver.
- destruct (String.eqb a "art"), (String.eqb b "art");
    apply set_eq; intros x; destruct (decide (x = "hidden"%string)); set_solver.
Qed.

(** X7: [switchState] shows the container it names and hides the other
    two; a name other than the three hides all of them; classes other
    than ["hidden"] stay as they are; and of two calls in a row only the
    second counts. *)
Theorem switchState_panels (stateName : string) (d : Dom) :
  (shown (introState (switchState stateName d)) <-> stateName = "intro"%string) /\
  (shown (loadingState (switchState stateName d)) <-> stateName = "loading"%string) /\
  (shown (artState (switchState stateName d)) <-> stateName = "art"%string) /\
  (forall c, c <> "hidden"%string ->
     (c ∈ introState (switchState stateName d) <-> c ∈ introState d) /\
     (c ∈ loadingState (switchState stateName d) <-> c ∈ loadingState d) /\
     (c ∈ artState (switchState stateName d) <-> c ∈ artState d)) /\
  (forall other, switchState other (switchState stateName d) = switchState other d).
Proof using Type.
clear.
destruct (switchState_shown stateName d) as (Hi & Hl & Ha).
split; [exact Hi |]. split; [exact Hl |]. split; [exact Ha |].
split; [| intros other; apply switchState_twice].
intros c Hc. unfold switchState. cbn [introState loadingState artState].
split; [| split].
- destruct (String.eqb stateName "intro"); set_solver.
- destruct (String.eqb stateName "loading"); set_solver.
- destruct (String.eqb stateName "art"); set_solver.
Qed.

End Engine.

(** ** The model run on the sample generator and field *)

Lemma lcg_unit_draws : unit_draws lcg_draw.
Proof.
intros g. unfold lcg_draw. cbn [fst].
pose proof (Z.mod_pos_bound g 1000 ltac:(lia)) as H.
unfold Qle, Qlt. cbn [Qnum Qden]. lia.
Qed.

Lemma sample_data_in_range : in_range sample_data.
Proof. unfold in_range, unit_range. cbn. repeat split; lra. Qed.

(** A generator outside its contract: the pick is [undefined] and the
    call is rejected before an image exists. *)
Example stuck_generator_rejected :
  draftColors lcg_seed stuck_draw 0.8 0.5 0.7 "t" = None /\
  produced (generateArtAt lcg_seed stuck_draw ramp_new ramp_noise2D plainStamp
              2 2 sample_data (fun _ p => p) blank_host) = None.
Proof. split; reflexivity. Qed.

(** The record of the scenario at 3 by 2, the canvas reset at the
    suspension. *)
Example sample_run :
  produced (generateArtAt lcg_seed lcg_draw ramp_new ramp_noise2D plainStamp
              3 2 sample_data (fun _ => resetClick) blank_host) = Some sample_raster.
Proof. vm_compute. reflexivity. Qed.

(** Another task that binds [currentWorldData] while the call is
    suspended changes the page the call leaves, not the raster. *)
Example suspension_reaches_page :
  match generateArtAt lcg_seed lcg_draw ramp_new ramp_noise2D plainStamp
          3 2 sample_data (fun _ => storeWorldData wild_data) blank_host,
        generateArtAt lcg_seed lcg_draw ramp_new ramp_noise2D plainStamp
          3 2 sample_data (fun _ p => p) blank_host
  with
  | Fulfilled p1, Fulfilled p2 =>
      currentWorldData p1 = Some wild_data /\ currentWorldData p2 = None /\
      lastGeneratedImageData p1 = Some sample_raster /\
      lastGeneratedImageData p2 = Some sample_raster
  | _, _ => False
  end.
Proof. vm_compute. repeat split. Qed.

(** In binary64 the run parameters take the quoted literal values at 0
    and 1, as compared by [===]. *)
Lemma binary64_literals :
  forallb (fun p => PrimFloat.eqb (fst p) (snd p)) Binary64.literals = true.
Proof. vm_compute. reflexivity. Qed.

(** In binary64 the largest draw times a pool length stays below the
    length, so its floor is an index of the pool. *)
Lemma binary64_scaled_draws :
  PrimFloat.ltb Binary64.largest_draw 1 = true /\
  forallb (fun p => PrimFloat.ltb (fst p) (snd p)) Binary64.scaled_draws = true.
Proof. split; vm_compute; reflexivity. Qed.


Lemma draftColors_shape_witness :
  unit_draws lcg_draw /\
  exists colors,
    draftColors lcg_seed lcg_draw 0.6 0 0.5 "2025-01-01T00:00:00Z_RETRO_V7"
      = Some colors /\
    length colors = 5%nat /\ Forall rgb_range colors.
Proof.
split; [exact lcg_unit_draws |].
exact (proj2 (proj2 (draftColors_shape lcg_seed lcg_draw 0.6 0 0.5
                       "2025-01-01T00:00:00Z_RETRO_V7" lcg_unit_draws))).
Defined.



(** C9, as the specification words it, fails on a record whose signals
    lie outside [0, 1]: the call is fulfilled with a complete raster. *)
Lemma out_of_range_record_accepted :
  ~ validated wild_data /\
  exists img,
    produced (generateArtAt lcg_seed lcg_draw ramp_new ramp_noise2D plainStamp
                2 2 wild_data (fun _ p => p) blank_host) = Some img /\
    length (data img) = 16%nat.
Proof.
split.
- unfold validated, in_range, unit_range. cbn. intros [[_ H] _]. lra.
- eexists. split; [vm_compute; reflexivity | reflexivity].
Qed.

(** ** The further properties on the samples *)

Lemma hexToRgb_six_digits_witness :
  hexDigit "2"%char = Some 2%Z /\ hexDigit "C"%char = Some 12%Z /\
  hexDigit "3"%char = Some 3%Z /\ hexDigit "E"%char = Some 14%Z /\
  hexDigit "5"%char = Some 5%Z /\ hexDigit "0"%char = Some 0%Z /\
  hexToRgb "#2C3E50" = (44, 62, 80)%Z.
Proof.
repeat (split; [reflexivity |]).
exact (hexToRgb_six_digits "2"%char "C"%char "3"%char "E"%char "5"%char "0"%char
         2%Z 12%Z 3%Z 14%Z 5%Z 0%Z
         eq_refl eq_refl eq_refl eq_refl eq_refl eq_refl).
Defined.

Lemma hexToRgb_digits_witness :
  allHex "fff" = true /\ "fff"%string <> EmptyString /\
  (String.length "fff" <= 7)%nat /\
  hexToRgb "#fff" = (0, 15, 255)%Z /\ hexToRgb "fff" = hexToRgb "#fff".
Proof.
assert (Hne : "fff"%string <> EmptyString) by discriminate.
assert (Hlen : (String.length "fff" <= 7)%nat) by (vm_compute; lia).
split; [reflexivity |]. split; [exact Hne |]. split; [exact Hlen |].
destruct (hexToRgb_digits "fff" eq_refl Hne Hlen) as (_ & Hhash & Hshort).
split; [| exact Hhash].
exact (Hshort "f"%char "f"%char "f"%char 15%Z 15%Z 15%Z eq_refl eq_refl eq_refl eq_refl).
Defined.

Lemma palette_contrast_witness :
  draftColors lcg_seed lcg_draw 0.8 0.5 0.7 "2025-01-01T00:00:00Z_RETRO_V7" =
    Some [(44, 62, 80); (211, 84, 0); (254, 249, 231); (46, 204, 113);
          (26, 188, 156)]%Z /\
  exists c0 c2,
    [(44, 62, 80); (211, 84, 0); (254, 249, 231); (46, 204, 113);
     (26, 188, 156)]%Z !! 0%nat = Some c0 /\
    [(44, 62, 80); (211, 84, 0); (254, 249, 231); (46, 204, 113);
     (26, 188, 156)]%Z !! 2%nat = Some c2 /\
    (brightness c0 <= 234 /\ 583 <= brightness c2)%Z.
Proof.
split; [reflexivity |].
exact (palette_contrast lcg_seed lcg_draw 0.8 0.5 0.7
         "2025-01-01T00:00:00Z_RETRO_V7" _ eq_refl).
Defined.


Lemma dither_one_bucket_witness :
  in_range sample_data /\ 0 <= 0.99 /\ 0.99 < 1 /\
  (-1 <= colIndexOf 0.65 (grainOf sample_data 0.99) - quantize 0.65 <= 1)%Z.
Proof.
assert (H0 : 0 <= 0.99) by (vm_compute; discriminate).
assert (H1 : 0.99 < 1) by (vm_compute; reflexivity).
split; [exact sample_data_in_range |]. split; [exact H0 |]. split; [exact H1 |].
exact (dither_one_bucket sample_data 0.99 0.65 sample_data_in_range H0 H1).
Defined.

Lemma raster_near_palette_witness :
  in_range sample_data /\ unit_draws lcg_draw /\
  produced (generateArtAt lcg_seed lcg_draw ramp_new ramp_noise2D plainStamp
              3 2 sample_data (fun _ => resetClick) blank_host) = Some sample_raster /\
  exists colors,
    draftColors lcg_seed lcg_draw (p_season sample_data) (p_sentiment sample_data)
      (p_entropy sample_data) (timestamp sample_data ++ "_RETRO_V7")%string
      = Some colors /\
    forall x y, (x < 3)%nat -> (y < 2)%nat ->
      exists c, c ∈ colors /\ pixel_near 3 (data sample_raster) x y c.
Proof.
split; [exact sample_data_in_range |]. split; [exact lcg_unit_draws |].
split; [exact sample_run |].
exact (raster_near_palette lcg_seed lcg_draw ramp_new ramp_noise2D plainStamp
         3 2 sample_data (fun _ => resetClick) blank_host sample_raster
         sample_data_in_range lcg_unit_draws sample_run).
Defined.
